(** * Bull call spread evaluation: a shallow embedding of [main.py]

    The script evaluates candidate bull call spreads under a discrete
    scenario model and selects the one with the best ratio of expected
    profit to standard deviation.

    Numbers.  Strikes, scenario prices and premiums are Python [int]s in
    the script and are modelled as [Z].  Probabilities, the rate and every
    quantity derived from them are Python floats, and the file reads them
    in two ways.

    - Over the real numbers [R], for the loops, the enumeration, the
      selection and the formulas: rounding and overflow of binary64 are
      abstracted, an [int] meeting a float is converted exactly, by [IZR].
      [np.sqrt] of a negative variance is nan, which takes negative
      probabilities; [sqrt] is 0 there.  The selection loop skips the
      result in both cases: nan is neither equal to 0 nor greater than any
      ratio.

    - In binary64, on Rocq's primitive floats, for what the evaluation of
      one spread computes to the last bit (lines 55-63 and 73-100): the
      conversion of an [int] rounds and can raise OverflowError, and the
      builtin [sum] is given as CPython has it up to 3.11 and from 3.12 on.

    Section 3 of the script plots the results and changes nothing; it is
    modelled as the list of calls it makes on matplotlib.  The formatting
    of the printed numbers is left out. *)

From Stdlib Require Import Floats.
From Stdlib Require Import ZArith Reals Lra Lia List Ascii.
From stdpp Require Import base option list gmap strings.
Import ListNotations.

Open Scope Z_scope.

(** ** Exceptions and the error monad *)

(** The exceptions of the model: a missing key of the premium table,
    [chr] called outside of the Unicode range, and an [int] too large to
    convert to a float.  The last one is raised in the binary64 reading
    only; the reading over the real numbers converts every [int] exactly.
    What [print] and matplotlib can raise depends on the terminal and the
    display and is not modelled. *)
Inductive exn : Type :=
  | KeyError (key : Z)
  | ValueError
  | OverflowError.

Inductive py (A : Type) : Type :=
  | Ret (a : A)
  | Raise (e : exn).
Arguments Ret {A} a.
Arguments Raise {A} e.

#[global] Instance py_ret : MRet py := fun A a => Ret a.

#[global] Instance py_bind : MBind py := fun A B k m =>
  match m with
  | Ret a => k a
  | Raise e => Raise e
  end.

(** ** Python values *)

(** A Python [str] is a sequence of Unicode code points. *)
Definition str : Type := list Z.

Definition ord (c : ascii) : Z := Z.of_N (N_of_ascii c).

(** [chr(i)] raises [ValueError] outside of [range(0x110000)]. *)
Definition chr (i : Z) : py str :=
  if bool_decide (0 <= i < 1114112) then Ret [i] else Raise ValueError.

(** [d[k]] on a dict: [KeyError] when the key is absent. *)
Definition getitem (d : gmap Z Z) (k : Z) : py Z :=
  match d !! k with
  | Some v => Ret v
  | None => Raise (KeyError k)
  end.

(** The builtin [sum]: left to right, starting from 0. *)
Definition sum (xs : list R) : R := fold_left Rplus xs 0%R.

(** A [for] loop over a list, threading the loop state; an exception raised
    by the body leaves the loop. *)
Fixpoint for_each {A S : Type} (xs : list A) (body : A -> S -> py S) (s : S) : py S :=
  match xs with
  | [] => Ret s
  | x :: xs' => s' ← body x s; for_each xs' body s'
  end.

(** ** Section 1 of the script: the data *)

Record scenario : Type := Scenario { price : Z; prob : R }.

(** One entry of [results]. *)
Record combo : Type := Combo {
  label : str;
  lower_strike : Z;
  upper_strike : Z;
  expected_profit : R;
  sd : R
}.

(** The module-level variables the enumeration loop updates. *)
Record state : Type := State {
  results : list combo;
  labels : list str;
  index_label : Z
}.

Definition initial_state : state :=
  {| results := []; labels := []; index_label := 0 |}.

(** ** Section 2 of the script: expected profit and SD of each spread *)

Definition bull_call_spread_payoff (final_price lower_strike upper_strike : Z) : Z :=
  let long_call_payoff := Z.max (final_price - lower_strike) 0 in
  let short_call_payoff := - Z.max (final_price - upper_strike) 0 in
  long_call_payoff + short_call_payoff.

Section Script.

(** The tables are module-level variables of the script. *)
Variable scenarios : list scenario.
Variable call_prices : gmap Z Z.
Variable lower_strike_candidates upper_strike_candidates : list Z.
Variable monthly_rf_rate : R.

Definition future_value_of_spread_cost
    (lower_strike upper_strike : Z) (monthly_rate : R) : py R :=
  long_premium ← getitem call_prices lower_strike;
  short_premium ← getitem call_prices upper_strike;
  let cost_now := long_premium - short_premium in
  Ret (IZR cost_now * (1 + monthly_rate))%R.

(** Lines 79-87: the list [payoffs] of net payoffs, one per scenario. *)
Definition net_payoffs (ls us : Z) (cost_future_value : R) : list R :=
  fold_left
    (fun payoffs scenario =>
       let final_price := price scenario in
       let spread_payoff := bull_call_spread_payoff final_price ls us in
       let net_payoff := (IZR spread_payoff - cost_future_value)%R in
       payoffs ++ [net_payoff])
    scenarios [].

(** Lines 90-100: expected profit and standard deviation of [payoffs]. *)
Definition expected_profit_of (payoffs : list R) : R :=
  sum (map (fun sp : scenario * R => (prob sp.1 * sp.2)%R) (zip scenarios payoffs)).

Definition var_of (payoffs : list R) (expected_profit : R) : R :=
  fold_left
    (fun var (sp : scenario * R) =>
       (var + prob sp.1 * (sp.2 - expected_profit) ^ 2)%R)
    (zip scenarios payoffs) 0%R.

(** Lines 72-113: the body of the loops for one pair with [us > ls]. *)
Definition evaluate_spread (ls us : Z) (st : state) : py state :=
  cost_future_value ← future_value_of_spread_cost ls us monthly_rf_rate;
  let payoffs := net_payoffs ls us cost_future_value in
  let expected_profit := expected_profit_of payoffs in
  let var := var_of payoffs expected_profit in
  let sd := sqrt var in
  label ← chr (ord "A" + index_label st);
  Ret {| results := results st ++
           [ {| label := label; lower_strike := ls; upper_strike := us;
                expected_profit := expected_profit; sd := sd |} ];
         labels := labels st ++ [label];
         index_label := index_label st + 1 |}.

(** Lines 65-113: the two nested loops. *)
Definition enumerate_spreads : py state :=
  for_each lower_strike_candidates
    (fun ls st =>
       for_each upper_strike_candidates
         (fun us st => if bool_decide (us > ls) then evaluate_spread ls us st else Ret st)
         st)
    initial_state.

End Script.

(** ** Section 3 of the script: the plot *)

(** The calls the script makes on [plt], with their arguments. *)
Inductive plt_call : Type :=
  | plt_figure (width height : Z)
  | plt_scatter (x_vals y_vals : list R) (color : string)
  | plt_text (x y : R) (s : str) (fontsize : Z)
  | plt_xlabel (s : string)
  | plt_ylabel (s : string)
  | plt_title (s : string)
  | plt_grid (visible : bool)
  | plt_tight_layout
  | plt_show.

(** [l[i]] on a list; [None] stands for IndexError. *)
Definition list_getitem {A : Type} (l : list A) (i : nat) : option A := l !! i.

(** [enumerate(l)]: the elements with their positions. *)
Definition enumerate {A : Type} (l : list A) : list (nat * A) :=
  imap (fun i a => (i, a)) l.

(** Lines 126-127: one [plt.text] per result, found by its position. *)
Fixpoint text_loop (x_vals y_vals : list R) (enumerated : list (nat * combo))
    : option (list plt_call) :=
  match enumerated with
  | [] => Some []
  | (i, r) :: rest =>
      x ← list_getitem x_vals i;
      y ← list_getitem y_vals i;
      calls ← text_loop x_vals y_vals rest;
      Some (plt_text (x * 1.01) (y * 1.01) (label r) 9 :: calls)
  end.

(** Lines 119-134. *)
Definition plot_section (results : list combo) : option (list plt_call) :=
  let x_vals := map sd results in
  let y_vals := map expected_profit results in
  texts ← text_loop x_vals y_vals (enumerate results);
  Some ([plt_figure 10 6; plt_scatter x_vals y_vals "blue"]
        ++ texts
        ++ [plt_xlabel "Standard Deviation of Profit";
            plt_ylabel "Expected Profit";
            plt_title "Bull Call Spread: Expected Profit vs. Standard Deviation";
            plt_grid true; plt_tight_layout; plt_show]).

(** ** Section 4 of the script: the optimal combination *)

(** One iteration of the selection loop on [(best_combo, best_ratio)]. *)
Definition select_step (best : option combo * R) (r : combo) : option combo * R :=
  if Req_dec_T (sd r) 0 then best
  else
    let ratio := (expected_profit r / sd r)%R in
    if Rgt_dec ratio best.2 then (Some r, ratio) else best.

Definition select (results : list combo) : option combo * R :=
  fold_left select_step results (None, (-999)%R).

(** What the script prints: the fields of the best combination and its
    ratio, or the message that there is none. *)
Inductive stdout : Type :=
  | OptimalCombination (best_combo : combo) (best_ratio : R)
  | NoValidCombinationFound.

Definition report (best : option combo * R) : stdout :=
  match best.1 with
  | Some best_combo => OptimalCombination best_combo best.2
  | None => NoValidCombinationFound
  end.

(** ** The whole script *)

Record inputs : Type := Inputs {
  scenarios : list scenario;
  annual_rf_rate : R;
  months_to_expiry : Z;
  call_prices : gmap Z Z;
  lower_strike_candidates : list Z;
  upper_strike_candidates : list Z
}.

Definition monthly_rf_rate (inp : inputs) : R := (annual_rf_rate inp / 12)%R.

Definition main (inp : inputs) : py stdout :=
  st ← enumerate_spreads (scenarios inp) (call_prices inp)
         (lower_strike_candidates inp) (upper_strike_candidates inp)
         (monthly_rf_rate inp);
  Ret (report (select (results st))).

(** The tables of the script itself. *)
Definition script_scenarios : list scenario :=
  [ Scenario 25350 0.20; Scenario 24000 0.60; Scenario 21250 0.20 ].

Definition script_call_prices : gmap Z Z :=
  list_to_map
    [ (21000, 2478); (21200, 2292); (21400, 2111); (21600, 1933); (21800, 1761);
      (22000, 1594); (22200, 1434); (22400, 1175); (22600, 1124); (22800, 884);
      (23000, 780); (23200, 645); (23400, 575); (23600, 476); (23800, 400);
      (24000, 341); (24200, 307); (24400, 236); (24600, 210); (24800, 165);
      (25000, 130); (25200, 101); (25400, 88); (25600, 75); (25800, 67);
      (26000, 47); (26200, 39); (26400, 31); (26600, 35); (26800, 20);
      (27000, 16); (27200, 13); (27400, 11); (27600, 9); (27800, 8);
      (28000, 8); (28200, 7); (28400, 6); (28600, 5); (28800, 4);
      (29000, 3); (29200, 1); (29400, 1); (29600, 1) ].

Definition script_inputs : inputs :=
  {| scenarios := script_scenarios;
     annual_rf_rate := 0.0342;
     months_to_expiry := 1;
     call_prices := script_call_prices;
     lower_strike_candidates :=
       [22000; 22400; 22800; 23200; 23600; 24000; 24400; 24800];
     upper_strike_candidates :=
       [24200; 24600; 25000; 25400; 25800; 26200; 26600; 27000] |}.

(** ** The evaluation in binary64 *)

(** The same lines 55-63 and 73-100 with Python's floats as they are,
    IEEE 754 binary64 numbers with rounding to nearest, ties to even. *)













(** ** Further inputs *)


(** The script's tables with a single scenario of probability 1. *)
Definition certain_inputs : inputs :=
  {| scenarios := [Scenario 24000 1];
     annual_rf_rate := 0.0342;
     months_to_expiry := 1;
     call_prices := script_call_prices;
     lower_strike_candidates := lower_strike_candidates script_inputs;
     upper_strike_candidates := upper_strike_candidates script_inputs |}.

(** One spread that costs 1000 and pays 1 or 0. *)
Definition costly_inputs : inputs :=
  {| scenarios := [Scenario 101 0.5; Scenario 100 0.5];
     annual_rf_rate := 0;
     months_to_expiry := 1;
     call_prices := {[ 100 := 1001; 200 := 1 ]};
     lower_strike_candidates := [100];
     upper_strike_candidates := [200] |}.

(** One spread that costs 1 and pays 1 or 0. *)
Definition modest_inputs : inputs :=
  {| scenarios := [Scenario 101 0.5; Scenario 100 0.5];
     annual_rf_rate := 0;
     months_to_expiry := 1;
     call_prices := {[ 100 := 2; 200 := 1 ]};
     lower_strike_candidates := [100];
     upper_strike_candidates := [200] |}.


(** The script's tables without any scenario. *)
Definition no_scenario_inputs : inputs :=
  {| scenarios := [];
     annual_rf_rate := 0.0342;
     months_to_expiry := 1;
     call_prices := script_call_prices;
     lower_strike_candidates := lower_strike_candidates script_inputs;
     upper_strike_candidates := upper_strike_candidates script_inputs |}.

(** ** Reference definitions, in the words of the specification *)

(** The Cartesian product of the candidate lists, restricted to the pairs
    with [upper > lower]. *)
Definition valid_pairs (lowerCandidates upperCandidates : list Z) : list (Z * Z) :=
  filter (fun p : Z * Z => p.2 > p.1) (list_prod lowerCandidates upperCandidates).

Definition strikes (r : combo) : Z * Z := (lower_strike r, upper_strike r).

(** Both strikes of a pair are keys of the quote table. *)
Definition quoted (quoteTable : gmap Z Z) (p : Z * Z) : Prop :=
  is_Some (quoteTable !! p.1) /\ is_Some (quoteTable !! p.2).

#[global] Instance quoted_dec (q : gmap Z Z) (p : Z * Z) : Decision (quoted q p).
Proof. unfold quoted. apply _. Defined.

(** The net premium compounded for one period, on a quoted pair. *)
Definition futureCost (quoteTable : gmap Z Z) (periodRate : R) (p : Z * Z) : R :=
  (IZR (quoteTable !!! p.1 - quoteTable !!! p.2) * (1 + periodRate))%R.

Definition netPayoff (lower upper : Z) (cost : R) (s : scenario) : R :=
  (IZR (bull_call_spread_payoff (price s) lower upper) - cost)%R.

(** The probability-weighted sum of [f] over the scenarios. *)
Fixpoint weighted_sum (f : scenario -> R) (ss : list scenario) : R :=
  match ss with
  | [] => 0%R
  | s :: ss' => (prob s * f s + weighted_sum f ss')%R
  end.

Definition expectedProfit (ss : list scenario) (lower upper : Z) (cost : R) : R :=
  weighted_sum (netPayoff lower upper cost) ss.

Definition variance (ss : list scenario) (lower upper : Z) (cost : R) : R :=
  weighted_sum
    (fun s => ((netPayoff lower upper cost s - expectedProfit ss lower upper cost) ^ 2)%R)
    ss.

(** The evaluation result of the pair [p] when it is the [i]-th valid pair. *)
Definition combo_at (ss : list scenario) (quoteTable : gmap Z Z) (periodRate : R)
    (i : nat) (p : Z * Z) : combo :=
  let cost := futureCost quoteTable periodRate p in
  {| label := [ord "A" + Z.of_nat i];
     lower_strike := p.1;
     upper_strike := p.2;
     expected_profit := expectedProfit ss p.1 p.2 cost;
     sd := sqrt (variance ss p.1 p.2 cost) |}.

(** The loop body on a pair, and the state it leaves when it succeeds. *)
Definition evaluate_pair (ss : list scenario) (quoteTable : gmap Z Z) (periodRate : R)
    (p : Z * Z) (st : state) : py state :=
  evaluate_spread ss quoteTable periodRate p.1 p.2 st.

Definition next_state (ss : list scenario) (q : gmap Z Z) (r : R)
    (p : Z * Z) (st : state) : state :=
  let c := combo_at ss q r (Z.to_nat (index_label st)) p in
  {| results := results st ++ [c];
     labels := labels st ++ [label c];
     index_label := index_label st + 1 |}.

(** A scenario distribution: probabilities in [0, 1] that sum to 1. *)
Definition distribution (ss : list scenario) : Prop :=
  Forall (fun s => (0 <= prob s <= 1)%R) ss /\ weighted_sum (fun _ => 1%R) ss = 1%R.



Definition ratio (r : combo) : R := (expected_profit r / sd r)%R.

(** The numbers of a result, without its label. *)
Definition figures (r : combo) : Z * Z * R * R :=
  (lower_strike r, upper_strike r, expected_profit r, sd r).

(** The scenarios that can happen. *)
Definition possible (ss : list scenario) : list scenario :=
  List.filter (fun s => if Req_dec_T (prob s) 0 then false else true) ss.

(** * Properties *)

(** ** Payoff model *)

(** C4: for upper_strike > lower_strike the payoff equals
    max(final_price - lower_strike, 0) - max(final_price - upper_strike, 0)
    and lies in the closed interval [0, upper_strike - lower_strike]. *)
Theorem payoff_formula_and_bounds (final_price lower_strike upper_strike : Z) :
  upper_strike > lower_strike ->
  bull_call_spread_payoff final_price lower_strike upper_strike
    = Z.max (final_price - lower_strike) 0 - Z.max (final_price - upper_strike) 0
  /\ 0 <= bull_call_spread_payoff final_price lower_strike upper_strike
       <= upper_strike - lower_strike.
Proof.
  intros Hlt. unfold bull_call_spread_payoff. cbv zeta. lia.
Qed.

Lemma payoff_formula_and_bounds_witness :
  bull_call_spread_payoff 25350 22000 24200
    = Z.max (25350 - 22000) 0 - Z.max (25350 - 24200) 0
  /\ 0 <= bull_call_spread_payoff 25350 22000 24200 <= 24200 - 22000.
Proof.
  apply (payoff_formula_and_bounds 25350 22000 24200). reflexivity.
Defined.

(** C9: for upper_strike > lower_strike the payoff is monotonically
    non-decreasing in the final price. *)
Theorem payoff_monotone (lower_strike upper_strike p1 p2 : Z) :
  upper_strike > lower_strike ->
  p1 <= p2 ->
  bull_call_spread_payoff p1 lower_strike upper_strike
    <= bull_call_spread_payoff p2 lower_strike upper_strike.
Proof.
  intros Hlt Hle. unfold bull_call_spread_payoff. cbv zeta. lia.
Qed.

Lemma payoff_monotone_witness :
  bull_call_spread_payoff 21250 22000 24200
    <= bull_call_spread_payoff 24000 22000 24200.
Proof.
  apply (payoff_monotone 22000 24200 21250 24000); [reflexivity | lia].
Defined.

(** ** Scenario evaluator: the loops of the script against the sums *)

Lemma fold_left_snoc_map {A B : Type} (f : A -> B) (l : list A) (acc : list B) :
  fold_left (fun acc a => acc ++ [f a]) l acc = acc ++ map f l.
Proof.
  revert acc. induction l as [|a l IH]; intros acc; simpl.
  - rewrite app_nil_r. reflexivity.
  - rewrite IH, <- app_assoc. reflexivity.
Qed.

Lemma net_payoffs_map (ss : list scenario) (ls us : Z) (cost : R) :
  net_payoffs ss ls us cost = map (netPayoff ls us cost) ss.
Proof.
  unfold net_payoffs.
  exact (fold_left_snoc_map (netPayoff ls us cost) ss []).
Qed.

Lemma fold_left_weighted (f : scenario -> R) (g : R -> R) (ss : list scenario) (acc : R) :
  fold_left (fun var (sp : scenario * R) => (var + prob sp.1 * g sp.2)%R)
    (zip ss (map f ss)) acc
  = (acc + weighted_sum (fun s => g (f s)) ss)%R.
Proof.
  revert acc. induction ss as [|s ss IH]; intros acc; simpl.
  - lra.
  - rewrite IH. lra.
Qed.

Lemma sum_weighted (f : scenario -> R) (ss : list scenario) (acc : R) :
  fold_left Rplus
    (map (fun sp : scenario * R => (prob sp.1 * sp.2)%R) (zip ss (map f ss))) acc
  = (acc + weighted_sum f ss)%R.
Proof.
  revert acc. induction ss as [|s ss IH]; intros acc; simpl.
  - lra.
  - rewrite IH. lra.
Qed.

Lemma expected_profit_of_spec (ss : list scenario) (ls us : Z) (cost : R) :
  expected_profit_of ss (net_payoffs ss ls us cost) = expectedProfit ss ls us cost.
Proof.
  unfold expected_profit_of, sum, expectedProfit.
  rewrite net_payoffs_map, sum_weighted. lra.
Qed.

Lemma var_of_spec (ss : list scenario) (ls us : Z) (cost : R) :
  var_of ss (net_payoffs ss ls us cost) (expectedProfit ss ls us cost)
  = variance ss ls us cost.
Proof.
  unfold var_of, variance.
  rewrite net_payoffs_map.
  rewrite (fold_left_weighted (netPayoff ls us cost)
             (fun x => ((x - expectedProfit ss ls us cost) ^ 2)%R)).
  lra.
Qed.

(** ** Cost model *)

Lemma future_value_of_spread_cost_quoted (q : gmap Z Z) (ls us : Z) (r : R) :
  quoted q (ls, us) ->
  future_value_of_spread_cost q ls us r = Ret (futureCost q r (ls, us)).
Proof.
  intros [[a Ha] [b Hb]]. simpl in Ha, Hb.
  unfold future_value_of_spread_cost, futureCost, getitem. simpl.
  rewrite (lookup_total_correct _ _ _ Ha), (lookup_total_correct _ _ _ Hb).
  rewrite Ha, Hb. reflexivity.
Qed.

Lemma future_value_of_spread_cost_unquoted (q : gmap Z Z) (ls us : Z) (r : R) :
  ~ quoted q (ls, us) ->
  exists k, q !! k = None /\ (k = ls \/ k = us)
            /\ future_value_of_spread_cost q ls us r = Raise (KeyError k).
Proof.
  intros Hnq. unfold future_value_of_spread_cost, getitem.
  destruct (q !! ls) as [a|] eqn:Ha.
  - destruct (q !! us) as [b|] eqn:Hb.
    + exfalso. apply Hnq. split; simpl; eauto.
    + exists us. auto.
  - exists ls. auto.
Qed.

(** ** One pass of the loop body *)

Lemma evaluate_spread_quoted (ss : list scenario) (q : gmap Z Z) (r : R)
    (ls us : Z) (st : state) :
  quoted q (ls, us) ->
  0 <= index_label st < 1114047 ->
  evaluate_spread ss q r ls us st = Ret (next_state ss q r (ls, us) st).
Proof.
  intros Hq Hi. unfold evaluate_spread.
  rewrite (future_value_of_spread_cost_quoted _ _ _ _ Hq). simpl.
  unfold chr. rewrite bool_decide_eq_true_2 by (unfold ord; simpl; lia).
  simpl. rewrite expected_profit_of_spec, var_of_spec.
  unfold next_state, combo_at. simpl. rewrite Z2Nat.id by lia. reflexivity.
Qed.

Lemma evaluate_spread_Ret (ss : list scenario) (q : gmap Z Z) (r : R)
    (ls us : Z) (st st' : state) :
  0 <= index_label st ->
  evaluate_spread ss q r ls us st = Ret st' ->
  quoted q (ls, us) /\ index_label st < 1114047
  /\ st' = next_state ss q r (ls, us) st.
Proof.
  intros Hi Hev.
  destruct (decide (quoted q (ls, us))) as [Hq|Hnq].
  - destruct (decide (index_label st < 1114047)) as [Hlt|Hge].
    + rewrite evaluate_spread_quoted in Hev by (auto; lia).
      injection Hev as <-. auto.
    + exfalso. unfold evaluate_spread in Hev.
      rewrite (future_value_of_spread_cost_quoted _ _ _ _ Hq) in Hev. simpl in Hev.
      unfold chr in Hev.
      rewrite bool_decide_eq_false_2 in Hev by (unfold ord; simpl; lia).
      discriminate Hev.
  - exfalso.
    destruct (future_value_of_spread_cost_unquoted q ls us r Hnq) as (k & _ & _ & Hk).
    unfold evaluate_spread in Hev. rewrite Hk in Hev. discriminate Hev.
Qed.

(** ** Loops *)

Lemma for_each_app {A S : Type} (xs ys : list A) (body : A -> S -> py S) (s : S) :
  for_each (xs ++ ys) body s = (s' ← for_each xs body s; for_each ys body s').
Proof.
  revert s. induction xs as [|x xs IH]; intros s; simpl; [reflexivity|].
  destruct (body x s) as [s1|e]; simpl; [apply IH | reflexivity].
Qed.

Lemma valid_pairs_cons (ls : Z) (lowers uppers : list Z) :
  valid_pairs (ls :: lowers) uppers
  = map (pair ls) (filter (fun us => us > ls) uppers) ++ valid_pairs lowers uppers.
Proof.
  unfold valid_pairs. simpl. rewrite filter_app. f_equal.
  induction uppers as [|us uppers IH]; [reflexivity|].
  simpl. rewrite !filter_cons. simpl.
  destruct (decide (us > ls)); simpl; rewrite IH; reflexivity.
Qed.

Section Enumeration.

Variable ss : list scenario.
Variable q : gmap Z Z.
Variable r : R.

Lemma inner_loop_filter (ls : Z) (uppers : list Z) (st : state) :
  for_each uppers
    (fun us st => if bool_decide (us > ls)
                  then evaluate_spread ss q r ls us st
                  else Ret st) st
  = for_each (map (pair ls) (filter (fun us => us > ls) uppers))
      (evaluate_pair ss q r) st.
Proof.
  unfold evaluate_pair. revert st.
  induction uppers as [|us uppers IH]; intros st; [reflexivity|].
  rewrite filter_cons. simpl. destruct (decide (us > ls)) as [Hgt|Hle].
  - rewrite bool_decide_eq_true_2 by exact Hgt. simpl.
    destruct (evaluate_spread _ _ _ ls us st); simpl; [apply IH | reflexivity].
  - rewrite bool_decide_eq_false_2 by exact Hle. simpl. apply IH.
Qed.

Lemma enumerate_spreads_pairs (lowers uppers : list Z) (st : state) :
  for_each lowers
    (fun ls st =>
       for_each uppers
         (fun us st => if bool_decide (us > ls)
                       then evaluate_spread ss q r ls us st
                       else Ret st) st) st
  = for_each (valid_pairs lowers uppers) (evaluate_pair ss q r) st.
Proof.
  revert st. induction lowers as [|ls lowers IH]; intros st; [reflexivity|].
  rewrite valid_pairs_cons, for_each_app. simpl.
  rewrite inner_loop_filter.
  destruct (for_each (map (pair ls) _) (evaluate_pair ss q r) st); simpl;
    [apply IH | reflexivity].
Qed.

(** The nested loops are one loop over the valid pairs. *)
Lemma enumerate_spreads_unfold (lowers uppers : list Z) :
  enumerate_spreads ss q lowers uppers r
  = for_each (valid_pairs lowers uppers) (evaluate_pair ss q r) initial_state.
Proof. apply enumerate_spreads_pairs. Qed.

Lemma next_state_index (p : Z * Z) (st : state) :
  index_label (next_state ss q r p st) = index_label st + 1.
Proof. reflexivity. Qed.

Lemma fold_next_index (pairs : list (Z * Z)) (st : state) :
  index_label (fold_left (fun st p => next_state ss q r p st) pairs st)
  = index_label st + Z.of_nat (length pairs).
Proof.
  revert st. induction pairs as [|p pairs IH]; intros st.
  - simpl. lia.
  - cbn [fold_left length]. rewrite IH, next_state_index. lia.
Qed.

(** The loop over the pairs returns when every pair is quoted and [chr]
    stays within the Unicode range. *)
Lemma run_pairs_quoted (pairs : list (Z * Z)) (st : state) :
  Forall (quoted q) pairs ->
  0 <= index_label st ->
  index_label st + Z.of_nat (length pairs) <= 1114047 ->
  for_each pairs (evaluate_pair ss q r) st
  = Ret (fold_left (fun st p => next_state ss q r p st) pairs st).
Proof.
  revert st. induction pairs as [|[ls us] pairs IH]; intros st Hq H0 Hlen.
  - reflexivity.
  - inversion Hq as [|? ? Hp Hps]; subst.
    cbn [for_each fold_left length] in *.
    replace (evaluate_pair ss q r (ls, us) st)
      with (Ret (next_state ss q r (ls, us) st))
      by (symmetry; apply evaluate_spread_quoted; auto; lia).
    change (for_each pairs (evaluate_pair ss q r) (next_state ss q r (ls, us) st)
            = Ret (fold_left (fun st p => next_state ss q r p st) pairs
                     (next_state ss q r (ls, us) st))).
    apply IH; [exact Hps | rewrite next_state_index; lia
              | rewrite next_state_index; lia].
Qed.

(** And only then. *)
Lemma run_pairs_Ret (pairs : list (Z * Z)) (st st' : state) :
  0 <= index_label st <= 1114047 ->
  for_each pairs (evaluate_pair ss q r) st = Ret st' ->
  Forall (quoted q) pairs
  /\ index_label st + Z.of_nat (length pairs) <= 1114047
  /\ st' = fold_left (fun st p => next_state ss q r p st) pairs st.
Proof.
  revert st. induction pairs as [|[ls us] pairs IH]; intros st H0 Hrun.
  - simpl in *. injection Hrun as <-.
    split; [constructor|]. split; [lia | reflexivity].
  - cbn [for_each fold_left length] in *.
    destruct (evaluate_pair ss q r (ls, us) st) as [st1|e] eqn:Hev;
      [|discriminate Hrun].
    apply evaluate_spread_Ret in Hev as (Hq & Hlt & ->); [|lia].
    change (for_each pairs (evaluate_pair ss q r) (next_state ss q r (ls, us) st)
            = Ret st') in Hrun.
    apply IH in Hrun as (Hqs & Hlen & ->); [|rewrite next_state_index; lia].
    rewrite next_state_index in Hlen.
    split; [constructor; assumption|]. split; [lia | reflexivity].
Qed.

Lemma fold_next_results (pairs : list (Z * Z)) (st : state) :
  index_label st = Z.of_nat (length (results st)) ->
  let new := imap (fun k => combo_at ss q r (length (results st) + k)) pairs in
  results (fold_left (fun st p => next_state ss q r p st) pairs st)
  = results st ++ new
  /\ labels (fold_left (fun st p => next_state ss q r p st) pairs st)
     = labels st ++ map label new.
Proof.
  revert st. induction pairs as [|p pairs IH]; intros st Hidx; cbn zeta.
  - simpl. rewrite !app_nil_r. auto.
  - cbn [fold_left].
    destruct (IH (next_state ss q r p st)) as [Hres Hlab].
    { rewrite next_state_index. simpl. rewrite length_app. simpl. lia. }
    rewrite Hres, Hlab. rewrite imap_cons. simpl.
    rewrite Hidx, Nat2Z.id, Nat.add_0_r, <- !app_assoc. simpl.
    assert (Hext :
      imap (fun k => combo_at ss q r
                       (length (results st ++ [combo_at ss q r (length (results st)) p])
                        + k)) pairs
      = imap ((fun k => combo_at ss q r (length (results st) + k)) ∘ S) pairs).
    { apply imap_ext. intros k x _. simpl. rewrite length_app. simpl.
      f_equal. lia. }
    rewrite Hext. auto.
Qed.

(** When the enumeration returns, every valid pair is quoted, there are
    at most 1114047 of them, and the results are the evaluations of the
    valid pairs, in order. *)
Lemma enumerate_spreads_Ret (lowers uppers : list Z) (st : state) :
  enumerate_spreads ss q lowers uppers r = Ret st ->
  Forall (quoted q) (valid_pairs lowers uppers)
  /\ Z.of_nat (length (valid_pairs lowers uppers)) <= 1114047
  /\ results st = imap (combo_at ss q r) (valid_pairs lowers uppers)
  /\ labels st = map label (results st)
  /\ index_label st = Z.of_nat (length (results st)).
Proof.
  rewrite enumerate_spreads_unfold. intros Hrun.
  apply run_pairs_Ret in Hrun as (Hq & Hlen & ->); [|simpl; lia].
  destruct (fold_next_results (valid_pairs lowers uppers) initial_state eq_refl)
    as [Hres Hlab].
  simpl in Hres, Hlab, Hlen.
  rewrite Hres, Hlab, fold_next_index, length_imap. simpl.
  repeat split; auto; lia.
Qed.

(** Conversely it returns under these two conditions. *)
Lemma enumerate_spreads_quoted (lowers uppers : list Z) :
  Forall (quoted q) (valid_pairs lowers uppers) ->
  Z.of_nat (length (valid_pairs lowers uppers)) <= 1114047 ->
  exists st, enumerate_spreads ss q lowers uppers r = Ret st.
Proof.
  intros Hq Hlen. rewrite enumerate_spreads_unfold. eexists.
  apply run_pairs_quoted; simpl; [exact Hq | lia | lia].
Qed.


End Enumeration.

(** ** Enumeration *)

Lemma strikes_imap (f : nat -> Z * Z -> combo) (pairs : list (Z * Z)) :
  (forall i p, strikes (f i p) = p) ->
  map strikes (imap f pairs) = pairs.
Proof.
  revert f. induction pairs as [|p pairs IH]; intros f Hf; [reflexivity|].
  rewrite imap_cons. simpl. rewrite Hf. f_equal.
  apply IH. intros i p'. apply Hf.
Qed.

Lemma strikes_combo_at (ss : list scenario) (q : gmap Z Z) (r : R)
    (pairs : list (Z * Z)) :
  map strikes (imap (combo_at ss q r) pairs) = pairs.
Proof. apply strikes_imap. intros i [ls us]. reflexivity. Qed.

Lemma valid_pairs_gt (lowers uppers : list Z) :
  Forall (fun p : Z * Z => p.2 > p.1) (valid_pairs lowers uppers).
Proof.
  unfold valid_pairs. apply Forall_forall. intros p Hin.
  apply list_elem_of_filter in Hin as [Hgt _]. exact Hgt.
Qed.

Lemma script_pairs_quoted :
  Forall (quoted script_call_prices)
    (valid_pairs (lower_strike_candidates script_inputs)
                 (upper_strike_candidates script_inputs)).
Proof.
  apply (bool_decide_unpack _). vm_compute. exact I.
Qed.

Lemma script_enumerates :
  exists st,
    enumerate_spreads script_scenarios script_call_prices
      (lower_strike_candidates script_inputs)
      (upper_strike_candidates script_inputs)
      (monthly_rf_rate script_inputs) = Ret st.
Proof.
  apply enumerate_spreads_quoted.
  - exact script_pairs_quoted.
  - vm_compute. discriminate.
Qed.

(** C5: the enumeration runs the outer loop over the lower candidates and
    the inner loop over the upper candidates, both in the given order, and
    evaluates exactly the pairs with upper > lower: the strikes of the
    results are the valid pairs of the Cartesian product in that order, every
    result has upper_strike > lower_strike, and for lower = [100, 200],
    upper = [150, 100] only the pair (100, 150) is evaluated. *)
Theorem enumeration_keeps_valid_pairs
    (ss : list scenario) (q : gmap Z Z) (lowers uppers : list Z) (r : R) (st : state) :
  enumerate_spreads ss q lowers uppers r = Ret st ->
  map strikes (results st) = valid_pairs lowers uppers
  /\ Forall (fun c => upper_strike c > lower_strike c) (results st)
  /\ (forall ls lowers',
        valid_pairs (ls :: lowers') uppers
        = map (pair ls) (filter (fun us => us > ls) uppers) ++ valid_pairs lowers' uppers)
  /\ (forall st',
        enumerate_spreads ss q [100; 200] [150; 100] r = Ret st' ->
        map strikes (results st') = [(100, 150)]).
Proof.
  intros Hrun.
  assert (Hstrikes : forall lowers uppers st,
             enumerate_spreads ss q lowers uppers r = Ret st ->
             map strikes (results st) = valid_pairs lowers uppers).
  { intros lo up st0 H0. apply enumerate_spreads_Ret in H0 as (_ & _ & Hres & _).
    rewrite Hres. apply strikes_combo_at. }
  split; [apply Hstrikes, Hrun|].
  split.
  - pose proof (valid_pairs_gt lowers uppers) as Hgt.
    rewrite <- (Hstrikes _ _ _ Hrun) in Hgt.
    rewrite Forall_forall in Hgt. apply Forall_forall. intros c Hc.
    apply (Hgt (strikes c)). apply (list_elem_of_fmap_2 strikes), Hc.
  - split; [intros; apply valid_pairs_cons|].
    intros st' Hrun'. rewrite (Hstrikes _ _ _ Hrun'). reflexivity.
Qed.

Lemma enumeration_keeps_valid_pairs_witness :
  exists st,
    enumerate_spreads script_scenarios script_call_prices
      (lower_strike_candidates script_inputs)
      (upper_strike_candidates script_inputs)
      (monthly_rf_rate script_inputs) = Ret st
    /\ map strikes (results st)
       = valid_pairs (lower_strike_candidates script_inputs)
                     (upper_strike_candidates script_inputs)
    /\ Forall (fun c => upper_strike c > lower_strike c) (results st).
Proof.
  destruct script_enumerates as [st Hst]. exists st.
  split; [exact Hst|].
  destruct (enumeration_keeps_valid_pairs _ _ _ _ _ _ Hst) as (H1 & H2 & _).
  split; assumption.
Defined.

(** ** Labels *)


Lemma results_lookup (ss : list scenario) (q : gmap Z Z) (lowers uppers : list Z)
    (r : R) (st : state) (i : nat) (c : combo) :
  enumerate_spreads ss q lowers uppers r = Ret st ->
  results st !! i = Some c ->
  Z.of_nat i < 1114047
  /\ exists p, valid_pairs lowers uppers !! i = Some p /\ c = combo_at ss q r i p.
Proof.
  intros Hrun Hc.
  apply enumerate_spreads_Ret in Hrun as (_ & Hlen & Hres & _).
  rewrite Hres, list_lookup_imap in Hc.
  destruct (valid_pairs lowers uppers !! i) as [p|] eqn:Hp; [|discriminate Hc].
  injection Hc as <-. apply lookup_lt_Some in Hp.
  split; [lia | eauto].
Qed.





(** ** Missing quotes *)






(** ** Scenario evaluator and cost model *)

(** C2: for a candidate (lower, upper) the cost is computed once; the net
    payoff of each scenario is payoff(price, lower, upper) - cost; the
    expected profit is the probability-weighted sum of the net payoffs; the
    variance is the probability-weighted sum of the squared deviations from
    the expected profit (population variance); and the standard deviation
    recorded is the square root of that variance. *)
Theorem evaluator_statistics
    (ss : list scenario) (q : gmap Z Z) (r : R) (lower upper : Z) (st st' : state) :
  evaluate_spread ss q r lower upper st = Ret st' ->
  exists (cost : R) (c : combo),
    future_value_of_spread_cost q lower upper r = Ret cost
    /\ results st' = results st ++ [c]
    /\ strikes c = (lower, upper)
    /\ net_payoffs ss lower upper cost
       = map (fun s => (IZR (bull_call_spread_payoff (price s) lower upper) - cost)%R) ss
    /\ expected_profit c
       = weighted_sum
           (fun s => (IZR (bull_call_spread_payoff (price s) lower upper) - cost)%R) ss
    /\ sd c
       = sqrt (weighted_sum
                 (fun s => ((IZR (bull_call_spread_payoff (price s) lower upper) - cost
                             - expected_profit c) ^ 2)%R) ss).
Proof.
  intros Hev. unfold evaluate_spread in Hev.
  destruct (future_value_of_spread_cost q lower upper r) as [cost|e] eqn:Hcost;
    [|discriminate Hev].
  cbn [mbind py_bind] in Hev.
  destruct (chr (ord "A" + index_label st)) as [l|e]; [|discriminate Hev].
  cbn [mbind py_bind] in Hev. injection Hev as <-.
  eexists cost, _. split; [reflexivity|]. split; [reflexivity|].
  split; [reflexivity|]. split; [apply net_payoffs_map|].
  cbn [expected_profit sd].
  rewrite expected_profit_of_spec, var_of_spec. split; reflexivity.
Qed.

Lemma evaluator_statistics_witness :
  exists (cost : R) (c : combo),
    future_value_of_spread_cost script_call_prices 22000 24200 0 = Ret cost
    /\ results (next_state script_scenarios script_call_prices 0 (22000, 24200)
                  initial_state) = results initial_state ++ [c]
    /\ strikes c = (22000, 24200)
    /\ net_payoffs script_scenarios 22000 24200 cost
       = map (fun s => (IZR (bull_call_spread_payoff (price s) 22000 24200) - cost)%R)
           script_scenarios
    /\ expected_profit c
       = weighted_sum
           (fun s => (IZR (bull_call_spread_payoff (price s) 22000 24200) - cost)%R)
           script_scenarios
    /\ sd c
       = sqrt (weighted_sum
                 (fun s => ((IZR (bull_call_spread_payoff (price s) 22000 24200) - cost
                             - expected_profit c) ^ 2)%R) script_scenarios).
Proof.
  apply (evaluator_statistics script_scenarios script_call_prices 0 22000 24200
           initial_state).
  apply evaluate_spread_quoted.
  - split; eexists; reflexivity.
  - simpl. lia.
Defined.

(** C3: for strikes L and U present in the quote table and every rate r
    the cost is (quote[L] - quote[U]) * (1 + r), the net premium compounded
    for exactly one period whatever months_to_expiry is; for r = 0 it is
    exactly quote[L] - quote[U]. *)
Theorem cost_compounds_one_period (q : gmap Z Z) (L U quoteL quoteU : Z) (r : R) :
  q !! L = Some quoteL ->
  q !! U = Some quoteU ->
  future_value_of_spread_cost q L U r = Ret (IZR (quoteL - quoteU) * (1 + r))%R
  /\ future_value_of_spread_cost q L U r = Ret ((IZR quoteL - IZR quoteU) * (1 + r))%R
  /\ future_value_of_spread_cost q L U 0 = Ret (IZR quoteL - IZR quoteU)%R
  /\ (forall inp,
        call_prices inp = q ->
        future_value_of_spread_cost (call_prices inp) L U (monthly_rf_rate inp)
        = Ret ((IZR quoteL - IZR quoteU) * (1 + annual_rf_rate inp / 12))%R).
Proof.
  intros HL HU.
  assert (Hcost : forall rate,
             future_value_of_spread_cost q L U rate
             = Ret (IZR (quoteL - quoteU) * (1 + rate))%R).
  { intros rate. unfold future_value_of_spread_cost, getitem.
    rewrite HL, HU. reflexivity. }
  split; [apply Hcost|].
  split; [rewrite Hcost, minus_IZR; reflexivity|].
  split.
  - rewrite Hcost, minus_IZR. f_equal. lra.
  - intros inp ->. rewrite Hcost, minus_IZR. reflexivity.
Qed.

Lemma cost_compounds_one_period_witness :
  future_value_of_spread_cost script_call_prices 22000 24200 0
  = Ret (IZR 1594 - IZR 307)%R.
Proof.
  apply (cost_compounds_one_period script_call_prices 22000 24200 1594 307 0);
    reflexivity.
Defined.

(** ** Standard deviation *)

Lemma weighted_sum_nonneg (f : scenario -> R) (ss : list scenario) :
  Forall (fun s => (0 <= prob s)%R) ss ->
  (forall s, (0 <= f s)%R) -> (0 <= weighted_sum f ss)%R.
Proof.
  intros Hp Hf. induction Hp as [|s l Hs Hl IH]; simpl; [lra|].
  specialize (Hf s). nra.
Qed.

Lemma weighted_sum_zero_iff (f : scenario -> R) (ss : list scenario) :
  Forall (fun s => (0 <= prob s)%R) ss ->
  (forall s, (0 <= f s)%R) ->
  weighted_sum f ss = 0%R <-> (forall s, s ∈ ss -> prob s <> 0%R -> f s = 0%R).
Proof.
  intros Hp Hf. induction Hp as [|s l Hs Hl IH]; simpl.
  - split; [|reflexivity]. intros _ s Hin. inversion Hin.
  - pose proof (weighted_sum_nonneg f l Hl Hf) as Hl0.
    pose proof (Hf s) as Hfs. split.
    + intros Hsum s' Hin Hp'.
      assert (Hterm : (prob s * f s = 0)%R) by nra.
      assert (Hrest : weighted_sum f l = 0%R) by nra.
      apply elem_of_cons in Hin as [->|Hin].
      * apply Rmult_integral in Hterm as [Hterm|Hterm]; [contradiction | exact Hterm].
      * apply IH; assumption.
    + intros Hall.
      assert (Hrest : weighted_sum f l = 0%R).
      { apply IH. intros s' Hin. apply Hall. right. exact Hin. }
      destruct (Req_dec_T (prob s) 0) as [Hp0|Hp0].
      * rewrite Hp0, Hrest. lra.
      * rewrite (Hall s (list_elem_of_here _ _) Hp0), Hrest. lra.
Qed.

Lemma weighted_sum_const (f : scenario -> R) (c : R) (ss : list scenario) :
  (forall s, s ∈ ss -> prob s <> 0%R -> f s = c) ->
  weighted_sum f ss = (c * weighted_sum (fun _ => 1) ss)%R.
Proof.
  induction ss as [|s l IH]; intros Hall; simpl.
  - lra.
  - rewrite IH by (intros s' Hin; apply Hall; right; exact Hin).
    destruct (Req_dec_T (prob s) 0) as [Hp|Hp].
    + rewrite Hp. lra.
    + rewrite (Hall s (list_elem_of_here _ _) Hp). lra.
Qed.

Lemma distribution_nonneg (ss : list scenario) :
  distribution ss -> Forall (fun s => (0 <= prob s)%R) ss.
Proof.
  intros [Hp _]. eapply Forall_impl; [exact Hp|]. simpl. intros s Hs. lra.
Qed.


Lemma pow2_eq_0 (x : R) : (x ^ 2 = 0 -> x = 0)%R.
Proof.
  simpl. intros H. apply Rmult_integral in H as [H|H]; lra.
Qed.

(** The variance vanishes exactly when the net payoff is the same in all
    scenarios of nonzero probability. *)
Lemma variance_zero_iff (ss : list scenario) (ls us : Z) (cost : R) :
  distribution ss ->
  variance ss ls us cost = 0%R
  <-> (forall s1 s2, s1 ∈ ss -> s2 ∈ ss -> prob s1 <> 0%R -> prob s2 <> 0%R ->
       netPayoff ls us cost s1 = netPayoff ls us cost s2).
Proof.
  intros Hd. pose proof (distribution_nonneg ss Hd) as Hnn.
  unfold variance.
  rewrite (weighted_sum_zero_iff _ ss Hnn) by (intros s; apply pow2_ge_0).
  split.
  - intros Hall s1 s2 H1 H2 Hp1 Hp2.
    pose proof (pow2_eq_0 _ (Hall s1 H1 Hp1)) as E1.
    pose proof (pow2_eq_0 _ (Hall s2 H2 Hp2)) as E2. lra.
  - intros Hsame s Hin Hp.
    destruct Hd as [_ Hsum].
    assert (Hmean : expectedProfit ss ls us cost = netPayoff ls us cost s).
    { unfold expectedProfit.
      rewrite (weighted_sum_const _ (netPayoff ls us cost s)).
      - rewrite Hsum. lra.
      - intros s' Hin' Hp'. apply Hsame; assumption. }
    rewrite Hmean. simpl. lra.
Qed.

(** *** Binary64 *)









(** ** Selection *)

Lemma select_step_cases (o : option combo) (b : R) (c : combo) :
  (select_step (o, b) c = (o, b) /\ (sd c <> 0%R -> (ratio c <= b)%R))
  \/ (select_step (o, b) c = (Some c, ratio c) /\ sd c <> 0%R /\ (b < ratio c)%R).
Proof.
  unfold select_step, ratio. cbn [fst snd].
  destruct (Req_dec_T (sd c) 0) as [Hsd|Hsd].
  - left. split; [reflexivity | contradiction].
  - destruct (Rgt_dec (expected_profit c / sd c) b) as [Hgt|Hle].
    + right. split; [reflexivity|]. split; [exact Hsd | lra].
    + left. split; [reflexivity | lra].
Qed.

(** The loop either leaves [(best_combo, best_ratio)] as it was, no result
    with a nonzero SD having a ratio above [best_ratio], or ends on the
    first result of greatest ratio. *)
Lemma select_fold_spec (rs : list combo) (o o' : option combo) (b b' : R) :
  fold_left select_step rs (o, b) = (o', b') ->
  (o' = o /\ b' = b /\ (forall c, c ∈ rs -> sd c <> 0%R -> (ratio c <= b)%R))
  \/ (exists before c after,
        rs = before ++ c :: after /\ o' = Some c /\ b' = ratio c
        /\ sd c <> 0%R /\ (b < ratio c)%R
        /\ (forall c', c' ∈ before -> sd c' <> 0%R -> (ratio c' < ratio c)%R)
        /\ (forall c', c' ∈ after -> sd c' <> 0%R -> (ratio c' <= ratio c)%R)).
Proof.
  revert o b. induction rs as [|x xs IH]; intros o b Hfold.
  - simpl in Hfold. injection Hfold as <- <-. left.
    split; [reflexivity|]. split; [reflexivity|]. intros c Hin. inversion Hin.
  - cbn [fold_left] in Hfold.
    destruct (select_step_cases o b x) as [[Hstep Hx]|(Hstep & Hsd & Hlt)];
      rewrite Hstep in Hfold; apply IH in Hfold.
    + destruct Hfold as [(-> & -> & Hall)|(before & c & after & -> & -> & -> & Hc)].
      * left. split; [reflexivity|]. split; [reflexivity|].
        intros c Hin. apply elem_of_cons in Hin as [->|Hin]; [exact Hx | apply Hall, Hin].
      * right. exists (x :: before), c, after.
        destruct Hc as (Hsdc & Hbc & Hbefore & Hafter).
        repeat split; try assumption; try reflexivity.
        intros c' Hin Hsd'. apply elem_of_cons in Hin as [->|Hin].
        -- specialize (Hx Hsd'). lra.
        -- apply Hbefore; assumption.
    + destruct Hfold as [(-> & -> & Hall)|(before & c & after & -> & -> & -> & Hc)].
      * right. exists [], x, xs.
        repeat split; try assumption; try reflexivity.
        intros c' Hin. inversion Hin.
      * right. exists (x :: before), c, after.
        destruct Hc as (Hsdc & Hbc & Hbefore & Hafter).
        repeat split; try assumption; try reflexivity; [lra|].
        intros c' Hin Hsd'. apply elem_of_cons in Hin as [->|Hin].
        -- exact Hbc.
        -- apply Hbefore; assumption.
Qed.

Lemma select_fold_skip (rs : list combo) (o : option combo) (b : R) :
  (forall c, c ∈ rs -> sd c <> 0%R -> (ratio c <= b)%R) ->
  fold_left select_step rs (o, b) = (o, b).
Proof.
  intros Hall.
  destruct (fold_left select_step rs (o, b)) as [o' b'] eqn:Hfold.
  apply select_fold_spec in Hfold
    as [(-> & -> & _)|(before & c & after & -> & _ & _ & Hsd & Hlt & _)].
  - reflexivity.
  - exfalso. assert (ratio c <= b)%R; [|lra].
    apply Hall; [|exact Hsd]. apply elem_of_app. right. left.
Qed.

(** X1: the selection rule of the script.  [select] returns the first result of
    greatest ratio among those with a nonzero SD, provided that ratio
    exceeds the initial [best_ratio] of -999; it returns no result exactly
    when no result with a nonzero SD has a ratio above -999. *)
Theorem selection_rule (rs : list combo) :
  (forall c b,
      select rs = (Some c, b) ->
      b = ratio c /\ (-999 < ratio c)%R /\ sd c <> 0%R
      /\ exists before after,
           rs = before ++ c :: after
           /\ (forall c', c' ∈ before -> sd c' <> 0%R -> (ratio c' < ratio c)%R)
           /\ (forall c', c' ∈ after -> sd c' <> 0%R -> (ratio c' <= ratio c)%R))
  /\ (forall b,
        select rs = (None, b) ->
        b = (-999)%R /\ forall c, c ∈ rs -> sd c <> 0%R -> (ratio c <= -999)%R)
  /\ ((exists c, c ∈ rs /\ sd c <> 0%R /\ (-999 < ratio c)%R) ->
      exists c b, select rs = (Some c, b)).
Proof.
  unfold select. split; [|split].
  - intros c b Hsel.
    apply select_fold_spec in Hsel
      as [(Hc & _)|(before & c0 & after & Hrs & Hc & -> & Hsd & Hlt & Hb & Ha)].
    + discriminate Hc.
    + injection Hc as ->. repeat split; try assumption. eauto.
  - intros b Hsel.
    apply select_fold_spec in Hsel
      as [(_ & -> & Hall)|(before & c0 & after & _ & Hc & _)].
    + split; [reflexivity | exact Hall].
    + discriminate Hc.
  - intros (c & Hin & Hsd & Hlt).
    destruct (fold_left select_step rs (None, (-999)%R)) as [[c0|] b] eqn:Hsel; [eauto|].
    exfalso. apply select_fold_spec in Hsel
      as [(_ & _ & Hall)|(before & c0 & after & _ & Hc & _)].
    + specialize (Hall c Hin Hsd). lra.
    + discriminate Hc.
Qed.

Lemma results_sd_nonneg (ss : list scenario) (q : gmap Z Z) (lowers uppers : list Z)
    (r : R) (st : state) (c : combo) :
  enumerate_spreads ss q lowers uppers r = Ret st ->
  c ∈ results st -> (0 <= sd c)%R.
Proof.
  intros Hrun Hin. apply list_elem_of_lookup in Hin as [i Hi].
  destruct (results_lookup _ _ _ _ _ _ _ _ Hrun Hi) as (_ & p & _ & ->).
  apply sqrt_pos.
Qed.

(** C7: when there is no valid candidate pair, or when no evaluated
    candidate has a standard deviation strictly greater than 0, the script
    raises nothing and reports that no valid combination was found. *)
Theorem no_viable_selection (inp : inputs) :
  valid_pairs (lower_strike_candidates inp) (upper_strike_candidates inp) = []
  \/ (exists st,
        enumerate_spreads (scenarios inp) (call_prices inp)
          (lower_strike_candidates inp) (upper_strike_candidates inp)
          (monthly_rf_rate inp) = Ret st
        /\ Forall (fun c => ~ (0 < sd c)%R) (results st)) ->
  main inp = Ret NoValidCombinationFound.
Proof.
  intros [Hempty|(st & Hrun & Hsd)]; unfold main.
  - rewrite enumerate_spreads_unfold, Hempty. reflexivity.
  - rewrite Hrun. cbn [mbind py_bind]. unfold select.
    rewrite select_fold_skip; [reflexivity|].
    intros c Hin Hnz. exfalso.
    pose proof (results_sd_nonneg _ _ _ _ _ _ _ Hrun Hin) as Hge.
    rewrite Forall_forall in Hsd. specialize (Hsd c Hin). lra.
Qed.

Lemma single_scenario_sd (s : scenario) (q : gmap Z Z) (r : R) (i : nat) (p : Z * Z) :
  prob s = 1%R -> sd (combo_at [s] q r i p) = 0%R.
Proof.
  intros Hs. cbn [combo_at sd].
  replace (variance [s] p.1 p.2 (futureCost q r p)) with 0%R; [apply sqrt_0|].
  symmetry. apply variance_zero_iff.
  - split; [repeat constructor; rewrite Hs; lra | simpl; rewrite Hs; lra].
  - intros s1 s2 H1 H2 _ _.
    apply list_elem_of_singleton in H1. apply list_elem_of_singleton in H2.
    subst. reflexivity.
Qed.

Lemma no_viable_selection_witness :
  main certain_inputs = Ret NoValidCombinationFound.
Proof.
  apply (no_viable_selection certain_inputs). right.
  destruct (enumerate_spreads_quoted [Scenario 24000 1] script_call_prices
              (monthly_rf_rate script_inputs)
              (lower_strike_candidates script_inputs)
              (upper_strike_candidates script_inputs)) as [st Hst].
  { exact script_pairs_quoted. }
  { vm_compute. discriminate. }
  exists st. split; [exact Hst|].
  apply Forall_forall. intros c Hin.
  apply list_elem_of_lookup in Hin as [i Hi].
  destruct (results_lookup _ _ _ _ _ _ _ _ Hst Hi) as (_ & p & _ & ->).
  rewrite single_scenario_sd by reflexivity. lra.
Defined.

Lemma costly_cost :
  futureCost (call_prices costly_inputs) (monthly_rf_rate costly_inputs) (100, 200)
  = 1000%R.
Proof.
  unfold futureCost, monthly_rf_rate. cbn [call_prices annual_rf_rate costly_inputs fst snd].
  replace (({[ 100 := 1001; 200 := 1 ]} : gmap Z Z) !!! 100
           - ({[ 100 := 1001; 200 := 1 ]} : gmap Z Z) !!! 200) with 1000 by reflexivity.
  lra.
Qed.

Lemma costly_expected_profit :
  expectedProfit (scenarios costly_inputs) 100 200 1000 = (-999.5)%R.
Proof.
  unfold expectedProfit, netPayoff. cbn [scenarios costly_inputs weighted_sum price prob].
  replace (bull_call_spread_payoff 101 100 200) with 1 by reflexivity.
  replace (bull_call_spread_payoff 100 100 200) with 0 by reflexivity.
  lra.
Qed.

Lemma costly_variance :
  variance (scenarios costly_inputs) 100 200 1000 = 0.25%R.
Proof.
  unfold variance. rewrite costly_expected_profit. unfold netPayoff.
  cbn [scenarios costly_inputs weighted_sum price prob].
  replace (bull_call_spread_payoff 101 100 200) with 1 by reflexivity.
  replace (bull_call_spread_payoff 100 100 200) with 0 by reflexivity.
  lra.
Qed.

(** C1 at an input where it fails: one spread, of lower strike 100 and
    upper strike 200, costs 1000 and pays 1 or 0 with probability one half
    each.  Its expected profit is -999.5 and its standard deviation 0.5,
    strictly greater than 0, so it is the result of greatest ratio, -1999;
    the selection loop starts from best_ratio = -999, never takes it, and
    the script reports that no valid combination was found. *)
Theorem select_misses_ratio_below_sentinel :
  exists c : combo,
    enumerate_spreads (scenarios costly_inputs) (call_prices costly_inputs)
      (lower_strike_candidates costly_inputs) (upper_strike_candidates costly_inputs)
      (monthly_rf_rate costly_inputs)
    = Ret {| results := [c]; labels := [label c]; index_label := 1 |}
    /\ label c = [ord "A"]
    /\ strikes c = (100, 200)
    /\ expected_profit c = (-999.5)%R
    /\ sd c = 0.5%R
    /\ (0 < sd c)%R
    /\ (expected_profit c / sd c = -1999)%R
    /\ select [c] = (None, (-999)%R)
    /\ main costly_inputs = Ret NoValidCombinationFound.
Proof.
  set (c := combo_at (scenarios costly_inputs) (call_prices costly_inputs)
              (monthly_rf_rate costly_inputs) 0 (100, 200)).
  assert (Hrun :
    enumerate_spreads (scenarios costly_inputs) (call_prices costly_inputs)
      (lower_strike_candidates costly_inputs) (upper_strike_candidates costly_inputs)
      (monthly_rf_rate costly_inputs)
    = Ret {| results := [c]; labels := [label c]; index_label := 1 |}).
  { rewrite enumerate_spreads_unfold.
    change (valid_pairs (lower_strike_candidates costly_inputs)
              (upper_strike_candidates costly_inputs)) with [(100, 200)].
    rewrite run_pairs_quoted; [reflexivity | | simpl; lia | simpl; lia].
    repeat constructor; eexists; reflexivity. }
  assert (Hep : expected_profit c = (-999.5)%R).
  { unfold c. cbn [combo_at expected_profit fst snd].
    rewrite costly_cost. apply costly_expected_profit. }
  assert (Hsd : sd c = 0.5%R).
  { unfold c. cbn [combo_at sd fst snd].
    rewrite costly_cost, costly_variance.
    apply sqrt_lem_1; lra. }
  assert (Hsel : select [c] = (None, (-999)%R)).
  { unfold select. apply select_fold_skip.
    intros c' Hin _. apply list_elem_of_singleton in Hin as ->.
    unfold ratio. rewrite Hep, Hsd. lra. }
  exists c. split; [exact Hrun|].
  split; [reflexivity|]. split; [reflexivity|].
  split; [exact Hep|]. split; [exact Hsd|].
  split; [rewrite Hsd; lra|].
  split; [rewrite Hep, Hsd; lra|].
  split; [exact Hsel|].
  unfold main. rewrite Hrun. cbn [mbind py_bind results]. rewrite Hsel. reflexivity.
Qed.

(** ** Further properties *)

(** X2: what a returning enumeration implies.  If the enumeration
    returns, then both strikes of every candidate pair with upper > lower
    are keys of the quote table, and there are at most 1114047 such pairs,
    the number of labels [chr] can give from "A" on. *)
Theorem enumeration_returns_only_if
    (ss : list scenario) (q : gmap Z Z) (lowers uppers : list Z) (r : R) (st : state) :
  enumerate_spreads ss q lowers uppers r = Ret st ->
  (forall ls us,
      ls ∈ lowers -> us ∈ uppers -> us > ls ->
      is_Some (q !! ls) /\ is_Some (q !! us))
  /\ Forall (quoted q) (valid_pairs lowers uppers)
  /\ Z.of_nat (length (valid_pairs lowers uppers)) <= 1114047.
Proof.
  intros Hrun. apply enumerate_spreads_Ret in Hrun as (Hq & Hlen & _).
  split; [|auto].
  intros ls us Hls Hus Hgt. rewrite Forall_forall in Hq.
  apply (Hq (ls, us)). unfold valid_pairs.
  apply list_elem_of_filter. split; [exact Hgt|].
  apply list_elem_of_In, in_prod; apply list_elem_of_In; assumption.
Qed.

Lemma enumeration_returns_only_if_witness :
  exists st,
    enumerate_spreads script_scenarios script_call_prices
      (lower_strike_candidates script_inputs)
      (upper_strike_candidates script_inputs)
      (monthly_rf_rate script_inputs) = Ret st
    /\ Forall (quoted script_call_prices)
         (valid_pairs (lower_strike_candidates script_inputs)
                      (upper_strike_candidates script_inputs))
    /\ Z.of_nat (length (valid_pairs (lower_strike_candidates script_inputs)
                                      (upper_strike_candidates script_inputs)))
       <= 1114047.
Proof.
  destruct script_enumerates as [st Hst]. exists st.
  split; [exact Hst|].
  destruct (enumeration_returns_only_if _ _ _ _ _ _ Hst) as (_ & H1 & H2). auto.
Defined.

(** The worked example.  With the script's scenarios, a rate of 0 and
    the spread of strikes 22000 and 24200, quoted 1594 and 307, the cost is
    1287, the expected profit 353 and the variance 678400; the spread is
    labelled "A". *)
Theorem worked_example :
  future_value_of_spread_cost script_call_prices 22000 24200 0 = Ret 1287%R
  /\ exists c : combo,
       evaluate_spread script_scenarios script_call_prices 0 22000 24200 initial_state
       = Ret {| results := [c]; labels := [label c]; index_label := 1 |}
       /\ label c = [ord "A"]
       /\ strikes c = (22000, 24200)
       /\ expected_profit c = 353%R
       /\ sd c = sqrt 678400.
Proof.
  assert (Hq : quoted script_call_prices (22000, 24200))
    by (split; eexists; reflexivity).
  assert (Hcost : futureCost script_call_prices 0 (22000, 24200) = 1287%R).
  { unfold futureCost. cbn [fst snd].
    replace (script_call_prices !!! 22000 - script_call_prices !!! 24200)
      with 1287 by reflexivity.
    lra. }
  assert (Hep : expectedProfit script_scenarios 22000 24200 1287 = 353%R).
  { unfold expectedProfit, netPayoff, script_scenarios. cbn [weighted_sum price prob].
    replace (bull_call_spread_payoff 25350 22000 24200) with 2200 by reflexivity.
    replace (bull_call_spread_payoff 24000 22000 24200) with 2000 by reflexivity.
    replace (bull_call_spread_payoff 21250 22000 24200) with 0 by reflexivity.
    lra. }
  split.
  - rewrite (future_value_of_spread_cost_quoted _ _ _ _ Hq), Hcost. reflexivity.
  - exists (combo_at script_scenarios script_call_prices 0 0 (22000, 24200)).
    split; [rewrite evaluate_spread_quoted by (auto; simpl; lia); reflexivity|].
    split; [reflexivity|]. split; [reflexivity|].
    cbn [combo_at expected_profit sd fst snd]. rewrite Hcost. split; [exact Hep|].
    f_equal. unfold variance. rewrite Hep.
    unfold netPayoff, script_scenarios. cbn [weighted_sum price prob].
    replace (bull_call_spread_payoff 25350 22000 24200) with 2200 by reflexivity.
    replace (bull_call_spread_payoff 24000 22000 24200) with 2000 by reflexivity.
    replace (bull_call_spread_payoff 21250 22000 24200) with 0 by reflexivity.
    lra.
Qed.

(** ** Payoff and cost of adjacent spreads *)

(** X3: the payoff of a spread with upper > lower is the gain over the
    lower strike capped at the width of the spread: it is 0 exactly up to
    the lower strike, the full width exactly from the upper strike on, and
    final_price - lower_strike in between. *)
Theorem payoff_piecewise (final_price lower_strike upper_strike : Z) :
  upper_strike > lower_strike ->
  bull_call_spread_payoff final_price lower_strike upper_strike
  = Z.min (Z.max (final_price - lower_strike) 0) (upper_strike - lower_strike)
  /\ (bull_call_spread_payoff final_price lower_strike upper_strike = 0
      <-> final_price <= lower_strike)
  /\ (bull_call_spread_payoff final_price lower_strike upper_strike
      = upper_strike - lower_strike
      <-> upper_strike <= final_price)
  /\ (lower_strike <= final_price <= upper_strike ->
      bull_call_spread_payoff final_price lower_strike upper_strike
      = final_price - lower_strike).
Proof.
  intros Hlt. unfold bull_call_spread_payoff. cbv zeta. lia.
Qed.

Lemma payoff_piecewise_witness :
  bull_call_spread_payoff 24000 22000 24200 = Z.min (Z.max (24000 - 22000) 0) (24200 - 22000)
  /\ (bull_call_spread_payoff 24000 22000 24200 = 0 <-> 24000 <= 22000)
  /\ (bull_call_spread_payoff 24000 22000 24200 = 24200 - 22000 <-> 24200 <= 24000)
  /\ (22000 <= 24000 <= 24200 ->
      bull_call_spread_payoff 24000 22000 24200 = 24000 - 22000).
Proof.
  apply (payoff_piecewise 24000 22000 24200). reflexivity.
Defined.

(** X4: payoffs of spreads add up and mirror, whatever the order of the
    strikes: the spreads (L, M) and (M, U) together pay what (L, U) pays,
    swapping the two legs negates the payoff, a spread of equal strikes pays
    nothing, shifting price and strikes together changes nothing, and the
    payoff never grows faster than the price. *)
Theorem payoff_spreads_compose (p L M U k p' : Z) :
  bull_call_spread_payoff p L M + bull_call_spread_payoff p M U
  = bull_call_spread_payoff p L U
  /\ bull_call_spread_payoff p U L = - bull_call_spread_payoff p L U
  /\ bull_call_spread_payoff p L L = 0
  /\ bull_call_spread_payoff (p + k) (L + k) (U + k) = bull_call_spread_payoff p L U
  /\ (p <= p' ->
      bull_call_spread_payoff p' L U - bull_call_spread_payoff p L U <= p' - p).
Proof.
  unfold bull_call_spread_payoff. cbv zeta. lia.
Qed.

(** X5: what the cost function does on the quote table.  A missing lower
    strike raises KeyError for it, whether or not the upper strike is
    quoted; with the lower strike quoted, a missing upper strike raises
    KeyError for the upper strike; and when the function returns, both
    strikes are quoted. *)
Theorem cost_lookup_outcome (q : gmap Z Z) (L U : Z) (r : R) :
  (q !! L = None -> future_value_of_spread_cost q L U r = Raise (KeyError L))
  /\ (is_Some (q !! L) -> q !! U = None ->
      future_value_of_spread_cost q L U r = Raise (KeyError U))
  /\ (forall cost,
        future_value_of_spread_cost q L U r = Ret cost ->
        is_Some (q !! L) /\ is_Some (q !! U)).
Proof.
  unfold future_value_of_spread_cost, getitem.
  destruct (q !! L) as [a|] eqn:HL; destruct (q !! U) as [b|] eqn:HU;
    cbn [mbind py_bind].
  - split; [discriminate|]. split; [discriminate|]. intros _ _. split; eauto.
  - split; [discriminate|]. split; [reflexivity|]. intros c Hc. discriminate Hc.
  - split; [reflexivity|]. split; [intros [x Hx]; discriminate Hx|].
    intros c Hc. discriminate Hc.
  - split; [reflexivity|]. split; [intros [x Hx]; discriminate Hx|].
    intros c Hc. discriminate Hc.
Qed.

(** ** Shared lemmas *)

Lemma weighted_sum_ext (f g : scenario -> R) (ss : list scenario) :
  (forall s, f s = g s) -> weighted_sum f ss = weighted_sum g ss.
Proof.
  intros Hfg. induction ss as [|s l IH]; simpl; [reflexivity|].
  rewrite IH, Hfg. reflexivity.
Qed.

Lemma results_elem (ss : list scenario) (q : gmap Z Z) (lowers uppers : list Z)
    (r : R) (st : state) (c : combo) :
  enumerate_spreads ss q lowers uppers r = Ret st ->
  c ∈ results st ->
  exists (i : nat) (p : Z * Z),
    p ∈ valid_pairs lowers uppers /\ quoted q p /\ p.2 > p.1
    /\ c = combo_at ss q r i p.
Proof.
  intros Hrun Hin. apply list_elem_of_lookup in Hin as [i Hi].
  destruct (results_lookup _ _ _ _ _ _ _ _ Hrun Hi) as (_ & p & Hp & ->).
  assert (Hpin : p ∈ valid_pairs lowers uppers)
    by (apply list_elem_of_lookup; eauto).
  apply enumerate_spreads_Ret in Hrun as (Hq & _).
  rewrite Forall_forall in Hq.
  pose proof (valid_pairs_gt lowers uppers) as Hgt. rewrite Forall_forall in Hgt.
  exists i, p. auto.
Qed.

(** ** Scenarios of probability 0 *)

Lemma weighted_sum_possible (f : scenario -> R) (ss : list scenario) :
  weighted_sum f (possible ss) = weighted_sum f ss.
Proof.
  unfold possible. induction ss as [|s l IH]; [reflexivity|].
  cbn [List.filter]. destruct (Req_dec_T (prob s) 0) as [Hp|Hp]; cbn [weighted_sum].
  - rewrite IH, Hp. lra.
  - rewrite IH. reflexivity.
Qed.

Lemma expectedProfit_possible (ss : list scenario) (ls us : Z) (cost : R) :
  expectedProfit (possible ss) ls us cost = expectedProfit ss ls us cost.
Proof. apply weighted_sum_possible. Qed.

Lemma variance_possible (ss : list scenario) (ls us : Z) (cost : R) :
  variance (possible ss) ls us cost = variance ss ls us cost.
Proof.
  unfold variance. rewrite weighted_sum_possible.
  apply weighted_sum_ext. intros s. rewrite expectedProfit_possible. reflexivity.
Qed.

Lemma evaluate_spread_possible (ss : list scenario) (q : gmap Z Z) (r : R)
    (ls us : Z) (st : state) :
  evaluate_spread (possible ss) q r ls us st = evaluate_spread ss q r ls us st.
Proof.
  unfold evaluate_spread.
  destruct (future_value_of_spread_cost q ls us r) as [cost|e]; [|reflexivity].
  cbn [mbind py_bind]. cbv zeta.
  rewrite !expected_profit_of_spec, !var_of_spec.
  rewrite expectedProfit_possible, variance_possible. reflexivity.
Qed.

Lemma for_each_ext {A S : Type} (xs : list A) (f g : A -> S -> py S) (s : S) :
  (forall x s, f x s = g x s) -> for_each xs f s = for_each xs g s.
Proof.
  intros Hfg. revert s. induction xs as [|x xs IH]; intros s; [reflexivity|].
  simpl. rewrite Hfg. destruct (g x s) as [s'|e]; simpl; [apply IH | reflexivity].
Qed.

(** X10: scenarios of probability 0 count for nothing.  Dropping them from
    the scenario table leaves the enumeration as it is, results, labels and
    exceptions alike, and so the outcome of the script. *)
Theorem impossible_scenarios_ignored
    (ss : list scenario) (q : gmap Z Z) (lowers uppers : list Z)
    (annual : R) (months : Z) :
  enumerate_spreads (possible ss) q lowers uppers (annual / 12)
  = enumerate_spreads ss q lowers uppers (annual / 12)
  /\ main (Inputs (possible ss) annual months q lowers uppers)
     = main (Inputs ss annual months q lowers uppers).
Proof.
  assert (Henum : enumerate_spreads (possible ss) q lowers uppers (annual / 12)
                  = enumerate_spreads ss q lowers uppers (annual / 12)).
  { rewrite !enumerate_spreads_unfold. apply for_each_ext.
    intros [ls us] st. apply evaluate_spread_possible. }
  split; [exact Henum|].
  unfold main, monthly_rf_rate.
  cbn [scenarios call_prices lower_strike_candidates upper_strike_candidates annual_rf_rate].
  rewrite Henum. reflexivity.
Qed.

(** ** More on the enumeration *)

Lemma valid_pairs_app (l1 l2 uppers : list Z) :
  valid_pairs (l1 ++ l2) uppers = valid_pairs l1 uppers ++ valid_pairs l2 uppers.
Proof.
  induction l1 as [|ls l1 IH]; [reflexivity|].
  simpl. rewrite !valid_pairs_cons, IH, app_assoc. reflexivity.
Qed.

Lemma valid_pairs_length (lowers uppers : list Z) :
  (length (valid_pairs lowers uppers) <= length lowers * length uppers)%nat.
Proof.
  unfold valid_pairs.
  rewrite <- (length_prod lowers uppers). apply length_filter.
Qed.

Lemma figures_imap (ss : list scenario) (q : gmap Z Z) (r : R)
    (f : nat -> nat) (pairs : list (Z * Z)) :
  map figures (imap (fun i => combo_at ss q r (f i)) pairs)
  = map (fun p => figures (combo_at ss q r 0 p)) pairs.
Proof.
  revert f. induction pairs as [|p pairs IH]; intros f; [reflexivity|].
  rewrite imap_cons. simpl. f_equal. apply (IH (f ∘ S)).
Qed.

(** X11: the bookkeeping of the enumeration.  When it returns, labels
    holds the labels of the results in order, index_label is the number of
    results, and that number is the number of pairs with upper > lower, at
    most the product of the lengths of the two candidate lists. *)
Theorem enumeration_bookkeeping
    (ss : list scenario) (q : gmap Z Z) (lowers uppers : list Z) (r : R) (st : state) :
  enumerate_spreads ss q lowers uppers r = Ret st ->
  labels st = map label (results st)
  /\ index_label st = Z.of_nat (length (results st))
  /\ length (results st) = length (valid_pairs lowers uppers)
  /\ (length (results st) <= length lowers * length uppers)%nat.
Proof.
  intros Hrun.
  apply enumerate_spreads_Ret in Hrun as (_ & _ & Hres & Hlab & Hidx).
  split; [exact Hlab|]. split; [exact Hidx|].
  assert (Hlen : length (results st) = length (valid_pairs lowers uppers))
    by (rewrite Hres; apply length_imap).
  split; [exact Hlen|]. rewrite Hlen. apply valid_pairs_length.
Qed.

Lemma enumeration_bookkeeping_witness :
  exists st,
    enumerate_spreads script_scenarios script_call_prices
      (lower_strike_candidates script_inputs)
      (upper_strike_candidates script_inputs)
      (monthly_rf_rate script_inputs) = Ret st
    /\ labels st = map label (results st)
    /\ index_label st = Z.of_nat (length (results st))
    /\ length (results st)
       = length (valid_pairs (lower_strike_candidates script_inputs)
                             (upper_strike_candidates script_inputs)).
Proof.
  destruct script_enumerates as [st Hst]. exists st.
  destruct (enumeration_bookkeeping _ _ _ _ _ _ Hst) as (H1 & H2 & H3 & _).
  auto.
Defined.

(** X12: candidates do not influence one another.  When the enumeration
    over the lower candidates l1 ++ l2 returns, so do the enumerations over
    l1 and over l2, and its results are theirs put end to end, label aside:
    same strikes, expected profit and standard deviation, in the same
    order. *)
Theorem enumeration_splits
    (ss : list scenario) (q : gmap Z Z) (l1 l2 uppers : list Z) (r : R) (st : state) :
  enumerate_spreads ss q (l1 ++ l2) uppers r = Ret st ->
  exists st1 st2,
    enumerate_spreads ss q l1 uppers r = Ret st1
    /\ enumerate_spreads ss q l2 uppers r = Ret st2
    /\ map figures (results st)
       = map figures (results st1) ++ map figures (results st2).
Proof.
  intros Hrun.
  pose proof (enumerate_spreads_Ret _ _ _ _ _ _ Hrun) as (Hq & Hlen & Hres & _).
  rewrite valid_pairs_app in Hq, Hlen, Hres.
  apply Forall_app in Hq as [Hq1 Hq2]. rewrite length_app in Hlen.
  destruct (enumerate_spreads_quoted ss q r l1 uppers Hq1) as [st1 H1]; [lia|].
  destruct (enumerate_spreads_quoted ss q r l2 uppers Hq2) as [st2 H2]; [lia|].
  exists st1, st2. split; [exact H1|]. split; [exact H2|].
  apply enumerate_spreads_Ret in H1 as (_ & _ & Hres1 & _).
  apply enumerate_spreads_Ret in H2 as (_ & _ & Hres2 & _).
  rewrite Hres, Hres1, Hres2.
  rewrite !(figures_imap ss q r (fun i => i)). apply map_app.
Qed.

Lemma enumeration_splits_witness :
  exists st st1 st2,
    enumerate_spreads script_scenarios script_call_prices
      ([22000; 22400; 22800; 23200] ++ [23600; 24000; 24400; 24800])
      (upper_strike_candidates script_inputs)
      (monthly_rf_rate script_inputs) = Ret st
    /\ enumerate_spreads script_scenarios script_call_prices
         [22000; 22400; 22800; 23200]
         (upper_strike_candidates script_inputs)
         (monthly_rf_rate script_inputs) = Ret st1
    /\ enumerate_spreads script_scenarios script_call_prices
         [23600; 24000; 24400; 24800]
         (upper_strike_candidates script_inputs)
         (monthly_rf_rate script_inputs) = Ret st2
    /\ map figures (results st)
       = map figures (results st1) ++ map figures (results st2).
Proof.
  destruct script_enumerates as [st Hst].
  destruct (enumeration_splits script_scenarios script_call_prices
              [22000; 22400; 22800; 23200] [23600; 24000; 24400; 24800]
              _ _ st Hst) as (st1 & st2 & H1 & H2 & H3).
  exists st, st1, st2. auto.
Defined.



(** ** The plot *)

Lemma text_loop_enumerate (before rs : list combo) :
  text_loop (map sd (before ++ rs)) (map expected_profit (before ++ rs))
    (imap (fun i a => (length before + i, a)%nat) rs)
  = Some (map (fun r => plt_text (sd r * 1.01) (expected_profit r * 1.01) (label r) 9) rs).
Proof.
  revert before. induction rs as [|r rs IH]; intros before; [reflexivity|].
  rewrite imap_cons. cbn [text_loop map]. unfold list_getitem.
  rewrite !map_app. cbn [map].
  rewrite (list_lookup_middle _ _ (sd r)) by (rewrite length_map; lia).
  rewrite (list_lookup_middle _ _ (expected_profit r)) by (rewrite length_map; lia).
  cbn [mbind option_bind].
  specialize (IH (before ++ [r])).
  rewrite <- !app_assoc, !map_app in IH. cbn [app map] in IH.
  rewrite (imap_ext _ ((fun i a => (length before + i, a)%nat) ∘ S)) in IH.
  - rewrite IH. reflexivity.
  - intros i x _. simpl. rewrite length_app. simpl. f_equal. lia.
Qed.

(** X14: the plot section never indexes out of range.  For every list of
    results it makes one scatter call on the standard deviations and the
    expected profits, in the order of the results, and then one text call
    per result, in the same order, at 1.01 times the coordinates of its
    point and with its label. *)
Theorem plot_section_calls (results : list combo) :
  plot_section results
  = Some ([plt_figure 10 6;
           plt_scatter (map sd results) (map expected_profit results) "blue"]
          ++ map (fun r => plt_text (sd r * 1.01) (expected_profit r * 1.01) (label r) 9)
               results
          ++ [plt_xlabel "Standard Deviation of Profit";
              plt_ylabel "Expected Profit";
              plt_title "Bull Call Spread: Expected Profit vs. Standard Deviation";
              plt_grid true; plt_tight_layout; plt_show]).
Proof.
  unfold plot_section, enumerate. cbv zeta.
  pose proof (text_loop_enumerate [] results) as Hloop.
  cbn [app length Nat.add] in Hloop. rewrite Hloop. reflexivity.
Qed.

(** ** The outcome of the script *)

Lemma report_select_cases (rs : list combo) :
  (report (select rs) = NoValidCombinationFound
   /\ select rs = (None, (-999)%R)
   /\ forall c, c ∈ rs -> sd c <> 0%R -> (ratio c <= -999)%R)
  \/ (exists before c after,
        report (select rs) = OptimalCombination c (ratio c)
        /\ rs = before ++ c :: after
        /\ sd c <> 0%R /\ (-999 < ratio c)%R
        /\ (forall c', c' ∈ before -> sd c' <> 0%R -> (ratio c' < ratio c)%R)
        /\ (forall c', c' ∈ after -> sd c' <> 0%R -> (ratio c' <= ratio c)%R)).
Proof.
  unfold select, report.
  destruct (fold_left select_step rs (None, (-999)%R)) as [o b] eqn:Hsel.
  apply select_fold_spec in Hsel
    as [(-> & -> & Hall)|(before & c & after & Hrs & -> & -> & Hc)].
  - left. auto.
  - right. exists before, c, after. cbn [fst snd]. tauto.
Qed.

(** X15: what a reported optimum is.  When the script prints an optimal
    combination, the enumeration returned and the combination is one of its
    results: a pair of candidate strikes with upper > lower, both quoted,
    with a standard deviation strictly above 0.  The ratio printed is its
    expected profit over its standard deviation, it is above -999, and no
    result with a positive standard deviation has a greater ratio. *)
Theorem main_reports_best (inp : inputs) (c : combo) (b : R) :
  main inp = Ret (OptimalCombination c b) ->
  exists st,
    enumerate_spreads (scenarios inp) (call_prices inp)
      (lower_strike_candidates inp) (upper_strike_candidates inp)
      (monthly_rf_rate inp) = Ret st
    /\ c ∈ results st
    /\ strikes c ∈ valid_pairs (lower_strike_candidates inp) (upper_strike_candidates inp)
    /\ upper_strike c > lower_strike c
    /\ quoted (call_prices inp) (strikes c)
    /\ (0 < sd c)%R
    /\ b = (expected_profit c / sd c)%R
    /\ (-999 < b)%R
    /\ (forall c', c' ∈ results st -> (0 < sd c')%R ->
        (expected_profit c' / sd c' <= b)%R).
Proof.
  unfold main. intros Hmain.
  destruct (enumerate_spreads (scenarios inp) (call_prices inp)
              (lower_strike_candidates inp) (upper_strike_candidates inp)
              (monthly_rf_rate inp)) as [st|e] eqn:Hrun; [|discriminate Hmain].
  cbn [mbind py_bind] in Hmain. injection Hmain as Hrep.
  destruct (report_select_cases (results st))
    as [(Hnone & _)|(before & c0 & after & Hopt & Hrs & Hsd & Hlt & Hb & Ha)];
    rewrite Hrep in *; [discriminate Hnone|].
  injection Hopt as Hc0 Hb0. subst c0 b.
  assert (Hin : c ∈ results st).
  { rewrite Hrs. apply elem_of_app. right. left. }
  exists st. split; [reflexivity|]. split; [exact Hin|].
  destruct (results_elem _ _ _ _ _ _ _ Hrun Hin) as (i & [ls us] & Hp & Hq & Hgt & Hc).
  assert (Hstrikes : strikes c = (ls, us)) by (rewrite Hc; reflexivity).
  rewrite Hstrikes.
  split; [exact Hp|].
  split; [rewrite Hc; exact Hgt|].
  split; [exact Hq|].
  pose proof (results_sd_nonneg _ _ _ _ _ _ _ Hrun Hin) as Hge.
  split; [lra|]. split; [reflexivity|]. split; [exact Hlt|].
  intros c' Hin' Hpos. fold (ratio c').
  rewrite Hrs in Hin'.
  apply elem_of_app in Hin' as [Hin'|Hin'].
  - apply Rlt_le, Hb; [exact Hin' | lra].
  - apply elem_of_cons in Hin' as [->|Hin']; [lra|].
    apply Ha; [exact Hin' | lra].
Qed.

Lemma modest_cost :
  futureCost (call_prices modest_inputs) (monthly_rf_rate modest_inputs) (100, 200)
  = 1%R.
Proof.
  unfold futureCost, monthly_rf_rate. cbn [call_prices annual_rf_rate modest_inputs fst snd].
  replace (({[ 100 := 2; 200 := 1 ]} : gmap Z Z) !!! 100
           - ({[ 100 := 2; 200 := 1 ]} : gmap Z Z) !!! 200) with 1 by reflexivity.
  lra.
Qed.

Lemma modest_expected_profit :
  expectedProfit (scenarios modest_inputs) 100 200 1 = (-0.5)%R.
Proof.
  unfold expectedProfit, netPayoff. cbn [scenarios modest_inputs weighted_sum price prob].
  replace (bull_call_spread_payoff 101 100 200) with 1 by reflexivity.
  replace (bull_call_spread_payoff 100 100 200) with 0 by reflexivity.
  lra.
Qed.

Lemma modest_variance :
  variance (scenarios modest_inputs) 100 200 1 = 0.25%R.
Proof.
  unfold variance. rewrite modest_expected_profit. unfold netPayoff.
  cbn [scenarios modest_inputs weighted_sum price prob].
  replace (bull_call_spread_payoff 101 100 200) with 1 by reflexivity.
  replace (bull_call_spread_payoff 100 100 200) with 0 by reflexivity.
  lra.
Qed.

Lemma modest_main :
  exists c : combo,
    expected_profit c = (-0.5)%R /\ sd c = 0.5%R
    /\ main modest_inputs = Ret (OptimalCombination c (expected_profit c / sd c)).
Proof.
  set (c := combo_at (scenarios modest_inputs) (call_prices modest_inputs)
              (monthly_rf_rate modest_inputs) 0 (100, 200)).
  assert (Hep : expected_profit c = (-0.5)%R).
  { unfold c. cbn [combo_at expected_profit fst snd].
    rewrite modest_cost. apply modest_expected_profit. }
  assert (Hsd : sd c = 0.5%R).
  { unfold c. cbn [combo_at sd fst snd].
    rewrite modest_cost, modest_variance. apply sqrt_lem_1; lra. }
  exists c. split; [exact Hep|]. split; [exact Hsd|].
  unfold main. rewrite enumerate_spreads_unfold.
  change (valid_pairs (lower_strike_candidates modest_inputs)
            (upper_strike_candidates modest_inputs)) with [(100, 200)].
  rewrite run_pairs_quoted;
    [| repeat constructor; eexists; reflexivity | simpl; lia | simpl; lia].
  cbn [mbind py_bind fold_left].
  change (results (next_state (scenarios modest_inputs) (call_prices modest_inputs)
                     (monthly_rf_rate modest_inputs) (100, 200) initial_state))
    with [c].
  unfold select. cbn [fold_left].
  destruct (select_step_cases None (-999) c) as [[_ Hle]|(Hstep & _)].
  - exfalso. assert (ratio c <= -999)%R by (apply Hle; rewrite Hsd; lra).
    unfold ratio in *. rewrite Hep, Hsd in *. lra.
  - rewrite Hstep. reflexivity.
Qed.

Lemma main_reports_best_witness :
  exists (c : combo) (st : state),
    main modest_inputs = Ret (OptimalCombination c (expected_profit c / sd c))
    /\ enumerate_spreads (scenarios modest_inputs) (call_prices modest_inputs)
         (lower_strike_candidates modest_inputs) (upper_strike_candidates modest_inputs)
         (monthly_rf_rate modest_inputs) = Ret st
    /\ c ∈ results st
    /\ (0 < sd c)%R
    /\ (-999 < expected_profit c / sd c)%R.
Proof.
  destruct modest_main as (c & _ & _ & Hmain).
  destruct (main_reports_best modest_inputs c _ Hmain)
    as (st & Hrun & Hin & _ & _ & _ & Hsd & _ & Hlt & _).
  exists c, st. auto.
Defined.

Lemma costly_main :
  main costly_inputs = Ret NoValidCombinationFound.
Proof.
  set (c := combo_at (scenarios costly_inputs) (call_prices costly_inputs)
              (monthly_rf_rate costly_inputs) 0 (100, 200)).
  assert (Hep : expected_profit c = (-999.5)%R).
  { unfold c. cbn [combo_at expected_profit fst snd].
    rewrite costly_cost. apply costly_expected_profit. }
  assert (Hsd : sd c = 0.5%R).
  { unfold c. cbn [combo_at sd fst snd].
    rewrite costly_cost, costly_variance. apply sqrt_lem_1; lra. }
  unfold main. rewrite enumerate_spreads_unfold.
  change (valid_pairs (lower_strike_candidates costly_inputs)
            (upper_strike_candidates costly_inputs)) with [(100, 200)].
  rewrite run_pairs_quoted;
    [| repeat constructor; eexists; reflexivity | simpl; lia | simpl; lia].
  cbn [mbind py_bind fold_left].
  change (results (next_state (scenarios costly_inputs) (call_prices costly_inputs)
                     (monthly_rf_rate costly_inputs) (100, 200) initial_state))
    with [c].
  unfold select. rewrite select_fold_skip; [reflexivity|].
  intros c' Hin _. apply list_elem_of_singleton in Hin as ->.
  unfold ratio. rewrite Hep, Hsd. lra.
Qed.

(** X16: what "No valid combination found." means.  When the script
    prints it, the enumeration returned and every result with a standard
    deviation above 0 has a ratio expected_profit / sd of at most -999;
    results with a positive standard deviation may well exist. *)
Theorem main_no_valid_means (inp : inputs) :
  main inp = Ret NoValidCombinationFound ->
  exists st,
    enumerate_spreads (scenarios inp) (call_prices inp)
      (lower_strike_candidates inp) (upper_strike_candidates inp)
      (monthly_rf_rate inp) = Ret st
    /\ select (results st) = (None, (-999)%R)
    /\ forall c, c ∈ results st -> (0 < sd c)%R ->
         (expected_profit c / sd c <= -999)%R.
Proof.
  unfold main. intros Hmain.
  destruct (enumerate_spreads (scenarios inp) (call_prices inp)
              (lower_strike_candidates inp) (upper_strike_candidates inp)
              (monthly_rf_rate inp)) as [st|e] eqn:Hrun; [|discriminate Hmain].
  cbn [mbind py_bind] in Hmain. injection Hmain as Hrep.
  exists st. split; [reflexivity|].
  destruct (report_select_cases (results st))
    as [(_ & Hsel & Hall)|(before & c & after & Hopt & _)].
  - split; [exact Hsel|]. intros c Hin Hpos. apply Hall; [exact Hin | lra].
  - rewrite Hrep in Hopt. discriminate Hopt.
Qed.

Lemma main_no_valid_means_witness :
  exists st,
    enumerate_spreads (scenarios costly_inputs) (call_prices costly_inputs)
      (lower_strike_candidates costly_inputs) (upper_strike_candidates costly_inputs)
      (monthly_rf_rate costly_inputs) = Ret st
    /\ select (results st) = (None, (-999)%R)
    /\ forall c, c ∈ results st -> (0 < sd c)%R ->
         (expected_profit c / sd c <= -999)%R.
Proof.
  exact (main_no_valid_means costly_inputs costly_main).
Defined.

(** X17: without scenarios there is nothing to select.  If the scenario
    table is empty, every result has an expected profit of 0 and a standard
    deviation of 0, and the script either prints that no valid combination
    was found or ends with the exception of the enumeration. *)
Theorem no_scenarios_no_selection
    (q : gmap Z Z) (lowers uppers : list Z) (annual : R) (months : Z) :
  (forall st,
      enumerate_spreads [] q lowers uppers (annual / 12) = Ret st ->
      Forall (fun c => expected_profit c = 0%R /\ sd c = 0%R) (results st))
  /\ (main (Inputs [] annual months q lowers uppers) = Ret NoValidCombinationFound
      \/ exists e, main (Inputs [] annual months q lowers uppers) = Raise e).
Proof.
  assert (Hzero : forall st,
             enumerate_spreads [] q lowers uppers (annual / 12) = Ret st ->
             Forall (fun c => expected_profit c = 0%R /\ sd c = 0%R) (results st)).
  { intros st Hrun. apply Forall_forall. intros c Hin.
    destruct (results_elem _ _ _ _ _ _ _ Hrun Hin) as (i & p & _ & _ & _ & ->).
    split; [reflexivity|]. cbn [combo_at sd]. apply sqrt_0. }
  split; [exact Hzero|].
  unfold main, monthly_rf_rate.
  cbn [scenarios call_prices lower_strike_candidates upper_strike_candidates annual_rf_rate].
  destruct (enumerate_spreads [] q lowers uppers (annual / 12)) as [st|e] eqn:Hrun;
    [left | right; eauto].
  cbn [mbind py_bind]. unfold select.
  rewrite select_fold_skip; [reflexivity|].
  intros c Hin Hnz. exfalso. specialize (Hzero st eq_refl).
  rewrite Forall_forall in Hzero. destruct (Hzero c Hin) as [_ Hsd]. contradiction.
Qed.
